(** * amtl/experimental/am-atomic.h: ordering policies, the two atomic
      value cores and the boolean wrapper

    The header is embedded shallowly.  An object of [AtomicValueImpl<T, Order>]
    is a record holding its one member [value_]; every member function is a
    computation that takes the object, returns its result and the updated
    object, and records the sequence of hardware / library primitives it
    invoked (fences, plain accesses, intrinsics, [std::atomic] calls), in
    program order.  Template parameters become ordinary arguments, and the
    specialisations of a template become the branches of a [match]. *)

From Stdlib Require Import ZArith List Bool String Lia.
Import ListNotations.
Local Open Scope Z_scope.

(* ================================================================== *)
(** ** Memory orderings *)

(** [enum class MemoryOrdering] *)
Inductive MemoryOrdering : Type :=
| Relaxed   (* No synchronization. *)
| SeqCst.   (* Sequentially consistent. *)

(** [std::memory_order] of <atomic>, with the enumerators in the order of the
    C++11 standard. *)
Inductive memory_order : Type :=
| memory_order_relaxed
| memory_order_consume
| memory_order_acquire
| memory_order_release
| memory_order_acq_rel
| memory_order_seq_cst.

(** The strength order of C++11 [atomics.order]: [weaker_eq a b] when every
    guarantee of [a] is also given by [b].  Relaxed is below everything,
    seq_cst is above everything, consume is below acquire, and acquire and
    release are both below acq_rel. *)
Definition weaker_eq (a b : memory_order) : bool :=
  match a, b with
  | memory_order_relaxed, _ => true
  | _, memory_order_seq_cst => true
  | memory_order_consume, (memory_order_consume | memory_order_acquire | memory_order_acq_rel) => true
  | memory_order_acquire, (memory_order_acquire | memory_order_acq_rel) => true
  | memory_order_release, (memory_order_release | memory_order_acq_rel) => true
  | memory_order_acq_rel, memory_order_acq_rel => true
  | _, _ => false
  end.

(** The orderings [std::atomic] accepts for each kind of operation: a load
    takes no release part, a store no acquire part, a read-modify-write
    takes any. *)
Definition valid_for_load (m : memory_order) : bool :=
  match m with
  | memory_order_release | memory_order_acq_rel => false
  | _ => true
  end.

Definition valid_for_store (m : memory_order) : bool :=
  match m with
  | memory_order_consume | memory_order_acquire | memory_order_acq_rel => false
  | _ => true
  end.

Definition valid_for_rmw (m : memory_order) : bool := true.

(* ================================================================== *)
(** ** Objects, primitives and the computation monad *)

(** The one data member of either [AtomicValueImpl]: [std::atomic<T> value_]
    in the C++11 backend, [T value_] in the fence backend.  Both hold one
    scalar of type [T]. *)
Record AtomicValueImpl (T : Type) : Type := mkAtomicValueImpl { value_ : T }.
Arguments mkAtomicValueImpl {T} _.
Arguments value_ {T} _.

(** What a member function can do to the machine, one constructor per
    primitive the header calls. *)
Inductive Event (T : Type) : Type :=
| EvSyncSynchronize                              (* __sync_synchronize() *)
| EvPlainLoad                                    (* T value = value_ *)
| EvPlainStore (v : T)                           (* value_ = value *)
| EvSyncLockTestAndSet (v : T)                   (* __sync_lock_test_and_set(&value_, v) *)
| EvAtomicLoad (mo : memory_order)               (* value_.load(mo) *)
| EvAtomicStore (v : T) (mo : memory_order)      (* value_.store(v, mo) *)
| EvAtomicExchange (v : T) (mo : memory_order).  (* value_.exchange(v, mo) *)
Arguments EvSyncSynchronize {T}.
Arguments EvPlainLoad {T}.
Arguments EvPlainStore {T} _.
Arguments EvSyncLockTestAndSet {T} _.
Arguments EvAtomicLoad {T} _.
Arguments EvAtomicStore {T} _ _.
Arguments EvAtomicExchange {T} _ _.

(** A member function with result type [A] on an object holding a [T]. *)
Definition M (T A : Type) : Type :=
  AtomicValueImpl T -> A * AtomicValueImpl T * list (Event T).

Definition ret {T A : Type} (a : A) : M T A :=
  fun obj => (a, obj, []).

Definition bind {T A B : Type} (c : M T A) (k : A -> M T B) : M T B :=
  fun obj =>
    let '(a, obj1, t1) := c obj in
    let '(b, obj2, t2) := k a obj1 in
    (b, obj2, t1 ++ t2).

Declare Scope atomic_scope.
Delimit Scope atomic_scope with atomic.
Notation "x <- c ;; k" := (bind c (fun x => k))
  (at level 61, c at next level, right associativity) : atomic_scope.
Notation "c ;; k" := (bind c (fun _ => k))
  (at level 61, right associativity) : atomic_scope.
Local Open Scope atomic_scope.

(** Projections of a finished call. *)
Definition result {T A : Type} (r : A * AtomicValueImpl T * list (Event T)) : A :=
  fst (fst r).
Definition object {T A : Type} (r : A * AtomicValueImpl T * list (Event T))
  : AtomicValueImpl T := snd (fst r).
Definition trace {T A : Type} (r : A * AtomicValueImpl T * list (Event T))
  : list (Event T) := snd r.

(** The primitives.  Their value semantics is the sequential one of the GCC
    [__sync] builtins and of [std::atomic<T>]: a load returns the stored
    value, a store replaces it, an exchange does both and returns the old
    value; a fence touches no value. *)
Section Primitives.
Context {T : Type}.

Definition sync_synchronize : M T unit :=
  fun obj => (tt, obj, [EvSyncSynchronize]).

Definition plain_load : M T T :=
  fun obj => (value_ obj, obj, [EvPlainLoad]).

Definition plain_store (v : T) : M T unit :=
  fun _ => (tt, mkAtomicValueImpl v, [EvPlainStore v]).

Definition sync_lock_test_and_set (v : T) : M T T :=
  fun obj => (value_ obj, mkAtomicValueImpl v, [EvSyncLockTestAndSet v]).

Definition atomic_load (mo : memory_order) : M T T :=
  fun obj => (value_ obj, obj, [EvAtomicLoad mo]).

Definition atomic_store (v : T) (mo : memory_order) : M T unit :=
  fun _ => (tt, mkAtomicValueImpl v, [EvAtomicStore v mo]).

Definition atomic_exchange (v : T) (mo : memory_order) : M T T :=
  fun obj => (value_ obj, mkAtomicValueImpl v, [EvAtomicExchange v mo]).
End Primitives.

(* ================================================================== *)
(** ** Backend A: C++11 <atomic> (KE_USE_CXX11_ATOMICS) *)

Module Cxx11.

(** [template <MemoryOrdering Order> struct StlOrdering] and its two
    specialisations. *)
Record StlOrderingT : Type := mkStlOrdering {
  Load : memory_order;
  Store : memory_order;
  ReadModifyWrite : memory_order
}.

Definition StlOrdering (Order : MemoryOrdering) : StlOrderingT :=
  match Order with
  | Relaxed => {| Load := memory_order_relaxed;
                  Store := memory_order_relaxed;
                  ReadModifyWrite := memory_order_relaxed |}
  | SeqCst => {| Load := memory_order_seq_cst;
                 Store := memory_order_seq_cst;
                 ReadModifyWrite := memory_order_seq_cst |}
  end.

Section Impl.
Context {T : Type}.
Variable Order : MemoryOrdering.

(* typedef StlOrdering<Order> StlOrder; *)
Definition StlOrder : StlOrderingT := StlOrdering Order.

Definition ctor (value : T) : AtomicValueImpl T := mkAtomicValueImpl value.

Definition exchange (newValue : T) : M T T :=
  atomic_exchange newValue (ReadModifyWrite StlOrder).

Definition get : M T T :=
  atomic_load (Load StlOrder).

Definition set (value : T) : M T unit :=
  atomic_store value (Store StlOrder).
End Impl.

End Cxx11.

(* ================================================================== *)
(** ** Backend B: fences and the GCC test-and-set intrinsic *)

Module Fence.

(** [template <MemoryOrdering Order> struct Synchronize]: four static
    member functions. *)
Record SynchronizeT (T : Type) : Type := mkSynchronize {
  FenceBeforeLoad : M T unit;
  FenceAfterLoad : M T unit;
  FenceBeforeStore : M T unit;
  FenceAfterStore : M T unit
}.
Arguments FenceBeforeLoad {T} _.
Arguments FenceAfterLoad {T} _.
Arguments FenceBeforeStore {T} _.
Arguments FenceAfterStore {T} _.

Definition Synchronize {T : Type} (Order : MemoryOrdering) : SynchronizeT T :=
  match Order with
  | Relaxed => {| FenceBeforeLoad := ret tt;
                  FenceAfterLoad := ret tt;
                  FenceBeforeStore := ret tt;
                  FenceAfterStore := ret tt |}
  | SeqCst => {| FenceBeforeLoad := sync_synchronize;
                 FenceAfterLoad := sync_synchronize;
                 FenceBeforeStore := sync_synchronize;
                 FenceAfterStore := sync_synchronize |}
  end.

Section Impl.
Context {T : Type}.
Variable Order : MemoryOrdering.

(* typedef Synchronize<Order> Model; *)
Definition Model : SynchronizeT T := Synchronize Order.

Definition ctor (value : T) : AtomicValueImpl T := mkAtomicValueImpl value.

Definition exchange (newValue : T) : M T T :=
  FenceBeforeStore Model ;;
  sync_lock_test_and_set newValue.

Definition get : M T T :=
  FenceBeforeLoad Model ;;
  value <- plain_load ;;
  FenceAfterLoad Model ;;
  ret value.

Definition set (value : T) : M T unit :=
  FenceBeforeStore Model ;;
  plain_store value ;;
  FenceAfterStore Model.
End Impl.

End Fence.

(* ================================================================== *)
(** ** Compile-time choice of the backend *)

Inductive Backend : Type :=
| KE_USE_CXX11_ATOMICS   (* the <atomic> implementation *)
| GNUC_FENCES.           (* the fence implementation, under __GNUC__ *)

(** The preprocessor conditions of the header: [_MSC_VER] defines
    [KE_USE_CXX11_ATOMICS]; otherwise [__GNUC__] brings in the fence
    implementation; otherwise [AtomicValueImpl] is not defined at all. *)
Definition select_backend (msc_ver gnuc : bool) : option Backend :=
  if msc_ver then Some KE_USE_CXX11_ATOMICS
  else if gnuc then Some GNUC_FENCES
  else None.

Section Dispatch.
Context {T : Type}.
Variable backend : Backend.
Variable Order : MemoryOrdering.

Definition Impl_ctor (value : T) : AtomicValueImpl T :=
  match backend with
  | KE_USE_CXX11_ATOMICS => Cxx11.ctor value
  | GNUC_FENCES => Fence.ctor value
  end.

Definition Impl_exchange (newValue : T) : M T T :=
  match backend with
  | KE_USE_CXX11_ATOMICS => Cxx11.exchange Order newValue
  | GNUC_FENCES => Fence.exchange Order newValue
  end.

Definition Impl_get : M T T :=
  match backend with
  | KE_USE_CXX11_ATOMICS => Cxx11.get Order
  | GNUC_FENCES => Fence.get Order
  end.

Definition Impl_set (value : T) : M T unit :=
  match backend with
  | KE_USE_CXX11_ATOMICS => Cxx11.set Order value
  | GNUC_FENCES => Fence.set Order value
  end.
End Dispatch.

(* ================================================================== *)
(** ** The public wrapper [Atomic<T, Order>] *)

(** [int32_t]: a 32-bit two's-complement integer, as a [Z] in
    [-2^31, 2^31). *)
Definition int32_t : Type := Z.

(** Conversion of an [int] expression to [int32_t]. *)
Definition to_int32 (z : Z) : int32_t :=
  (z + 2 ^ 31) mod 2 ^ 32 - 2 ^ 31.

(** [value ? 1 : 0] *)
Definition bool_to_int (value : bool) : Z :=
  if value then 1 else 0.

(** [!x] on an integer, and [!!x]. *)
Definition lnot (x : Z) : bool := x =? 0.
Definition not_not (x : Z) : bool := negb (lnot x).

(** The types a caller may put for [T]. *)
Inductive CxxType : Type :=
| TBool
| TInt (is_signed : bool) (bits : positive)
| TFloat
| TDouble
| TPointer (pointee : CxxType)
| TClass (name : string).

Definition is_bool (T : CxxType) : bool :=
  match T with
  | TBool => true
  | _ => false
  end.

(** Whether a class name has a body. *)
Inductive ClassDecl : Type :=
| DeclaredOnly   (* class Atomic;       -- an incomplete type *)
| Defined.       (* class Atomic { .. } *)

(** The primary template is
    [template <typename T, MemoryOrdering Order = SeqCst> class Atomic;]
    and nothing more. *)
Definition Atomic_primary : ClassDecl := DeclaredOnly.

(** The one partial specialisation, [class Atomic<bool, Order> final]. *)
Definition Atomic_bool_specialization : ClassDecl := Defined.

(** Which declaration an instantiation [Atomic<T, Order>] selects. *)
Definition Atomic_decl (T : CxxType) (Order : MemoryOrdering) : ClassDecl :=
  if is_bool T then Atomic_bool_specialization else Atomic_primary.

(** The objects of [Atomic<T, Order>].  [Atomic<bool, Order>] has no member
    of its own: an object is its private base, an
    [AtomicValueImpl<int32_t, Order>].  An incomplete type has no objects. *)
Definition Atomic (T : CxxType) (Order : MemoryOrdering) : Type :=
  match T with
  | TBool => AtomicValueImpl int32_t
  | _ => Empty_set
  end.

(** The default argument of the template. *)
Definition default_Order : MemoryOrdering := SeqCst.

Section AtomicBool.
Variable backend : Backend.
Variable Order : MemoryOrdering.

(* Atomic() : Base(0) {} *)
Definition Atomic_bool_default : AtomicValueImpl int32_t :=
  Impl_ctor backend (to_int32 0).

(* explicit Atomic(bool value) : Base(value ? 1 : 0) {} *)
Definition Atomic_bool_ctor (value : bool) : AtomicValueImpl int32_t :=
  Impl_ctor backend (to_int32 (bool_to_int value)).

(* operator bool() const { return !!Base::get(); } *)
Definition operator_bool : M int32_t bool :=
  x <- Impl_get backend Order ;;
  ret (not_not x).

(* bool exchange(bool value) { return !!Base::exchange(value ? 1 : 0); } *)
Definition Atomic_bool_exchange (value : bool) : M int32_t bool :=
  x <- Impl_exchange backend Order (to_int32 (bool_to_int value)) ;;
  ret (not_not x).

(** The expression [Atomic<T, Order>()]: it is well-formed only where the
    selected declaration has a body with a default constructor. *)
Definition Atomic_default (T : CxxType) : option (Atomic T Order) :=
  match T return option (Atomic T Order) with
  | TBool => Some Atomic_bool_default
  | _ => None
  end.

(** The value such an object holds right after [Atomic<T, Order>()], when
    the expression is well-formed. *)
Definition Atomic_default_value (T : CxxType) : option Z :=
  match T with
  | TBool => Some (value_ Atomic_bool_default)
  | _ => None
  end.

(** *** Sequences of public operations on an [Atomic<bool, Order>]

    The class has two constructors, the conversion to [bool] and
    [exchange]; its base is a private one, so the core's [get], [set] and
    [exchange] are not reachable from outside. *)

Inductive BoolCtor : Type :=
| CtorDefault
| CtorFrom (value : bool).

Inductive BoolOp : Type :=
| OpRead
| OpExchange (value : bool).

Definition construct (c : BoolCtor) : AtomicValueImpl int32_t :=
  match c with
  | CtorDefault => Atomic_bool_default
  | CtorFrom value => Atomic_bool_ctor value
  end.

Definition bool_step (op : BoolOp) : M int32_t bool :=
  match op with
  | OpRead => operator_bool
  | OpExchange value => Atomic_bool_exchange value
  end.

Fixpoint bool_run (ops : list BoolOp) : M int32_t (list bool) :=
  match ops with
  | [] => ret []
  | op :: rest =>
      r <- bool_step op ;;
      rs <- bool_run rest ;;
      ret (r :: rs)
  end.

End AtomicBool.

(** The invariant of the boolean wrapper. *)
Definition zero_or_one (obj : AtomicValueImpl int32_t) : Prop :=
  value_ obj = 0 \/ value_ obj = 1.

(* ================================================================== *)
(** ** Sequences of core operations, for comparing the backends *)

Section CoreRuns.
Context {T : Type}.

Inductive CoreOp : Type :=
| CallGet
| CallSet (value : T)
| CallExchange (newValue : T).

(** What a call hands back: [get] and [exchange] a [T], [set] nothing. *)
Definition core_step (backend : Backend) (Order : MemoryOrdering) (op : CoreOp)
  : M T (option T) :=
  match op with
  | CallGet => v <- Impl_get backend Order ;; ret (Some v)
  | CallSet value => Impl_set backend Order value ;; ret None
  | CallExchange newValue => v <- Impl_exchange backend Order newValue ;; ret (Some v)
  end.

Fixpoint core_run (backend : Backend) (Order : MemoryOrdering) (ops : list CoreOp)
  : M T (list (option T)) :=
  match ops with
  | [] => ret []
  | op :: rest =>
      r <- core_step backend Order op ;;
      rs <- core_run backend Order rest ;;
      ret (r :: rs)
  end.

(** The sequential register the specification describes: [get] returns the
    current value, [set] stores, [exchange] replaces the current value and
    returns the value immediately prior to replacement. *)
Definition register_step (op : CoreOp) (cur : T) : option T * T :=
  match op with
  | CallGet => (Some cur, cur)
  | CallSet value => (None, value)
  | CallExchange newValue => (Some cur, newValue)
  end.

Fixpoint register_run (ops : list CoreOp) (cur : T) : list (option T) * T :=
  match ops with
  | [] => ([], cur)
  | op :: rest =>
      let '(r, cur1) := register_step op cur in
      let '(rs, cur2) := register_run rest cur1 in
      (r :: rs, cur2)
  end.

End CoreRuns.
Arguments CoreOp : clear implicits.

(** Whether a trace contains a full fence. *)
Fixpoint has_fence {T : Type} (t : list (Event T)) : bool :=
  match t with
  | [] => false
  | EvSyncSynchronize :: _ => true
  | _ :: rest => has_fence rest
  end.

(* ================================================================== *)
(** ** Observations on call sequences and traces *)

Section Observations.
Context {T : Type}.

Definition is_get (op : CoreOp T) : bool :=
  match op with CallGet => true | _ => false end.

Definition is_set (op : CoreOp T) : bool :=
  match op with CallSet _ => true | _ => false end.

Definition is_exchange (op : CoreOp T) : bool :=
  match op with CallExchange _ => true | _ => false end.

(** How many calls of a sequence satisfy [p]. *)
Definition count_calls (p : CoreOp T -> bool) (ops : list (CoreOp T)) : nat :=
  List.length (filter p ops).

(** The value passed by the last [set] or [exchange] of a sequence, and
    [init] when the sequence has neither. *)
Fixpoint last_written (ops : list (CoreOp T)) (init : T) : T :=
  match ops with
  | [] => init
  | CallGet :: rest => last_written rest init
  | CallSet value :: rest => last_written rest value
  | CallExchange newValue :: rest => last_written rest newValue
  end.

Definition is_fence (e : Event T) : bool :=
  match e with EvSyncSynchronize => true | _ => false end.

Definition count_fences (t : list (Event T)) : nat :=
  List.length (filter is_fence t).

Definition drop_fences (t : list (Event T)) : list (Event T) :=
  filter (fun e => negb (is_fence e)) t.

(** A memory access with its ordering and the way it is issued erased. *)
Inductive Access : Type :=
| AccLoad
| AccStore (v : T)
| AccExchange (v : T).

Definition access_of_event (e : Event T) : option Access :=
  match e with
  | EvSyncSynchronize => None
  | EvPlainLoad => Some AccLoad
  | EvAtomicLoad _ => Some AccLoad
  | EvPlainStore v => Some (AccStore v)
  | EvAtomicStore v _ => Some (AccStore v)
  | EvSyncLockTestAndSet v => Some (AccExchange v)
  | EvAtomicExchange v _ => Some (AccExchange v)
  end.

Fixpoint accesses (t : list (Event T)) : list Access :=
  match t with
  | [] => []
  | e :: rest =>
      match access_of_event e with
      | Some a => a :: accesses rest
      | None => accesses rest
      end
  end.

Definition access_of_call (op : CoreOp T) : Access :=
  match op with
  | CallGet => AccLoad
  | CallSet value => AccStore value
  | CallExchange newValue => AccExchange newValue
  end.

(** An event that is a call into [std::atomic] carrying the ordering [mo]. *)
Definition atomic_call_with (mo : memory_order) (e : Event T) : Prop :=
  match e with
  | EvAtomicLoad m => m = mo
  | EvAtomicStore _ m => m = mo
  | EvAtomicExchange _ m => m = mo
  | _ => False
  end.



(** [get] followed by [set], as a caller without [exchange] would write
    it. *)
Definition get_then_set (backend : Backend) (Order : MemoryOrdering) (v : T) : M T T :=
  old <- Impl_get backend Order ;;
  Impl_set backend Order v ;;
  ret old.

End Observations.
Arguments Access : clear implicits.

(** The core call behind each public operation of [Atomic<bool, Order>]. *)
Definition lower (op : BoolOp) : CoreOp int32_t :=
  match op with
  | OpRead => CallGet
  | OpExchange value => CallExchange (to_int32 (bool_to_int value))
  end.

(** A plain boolean cell with a read and an exchange. *)
Definition flag_step (op : BoolOp) (cur : bool) : bool * bool :=
  match op with
  | OpRead => (cur, cur)
  | OpExchange value => (cur, value)
  end.

Fixpoint flag_run (ops : list BoolOp) (cur : bool) : list bool * bool :=
  match ops with
  | [] => ([], cur)
  | op :: rest =>
      let '(r, cur1) := flag_step op cur in
      let '(rs, cur2) := flag_run rest cur1 in
      (r :: rs, cur2)
  end.

(* ================================================================== *)
(** * Properties *)

(** ** Generic facts about computations *)

Lemma bind_run {T A B : Type} (c : M T A) (k : A -> M T B) (obj : AtomicValueImpl T) :
  bind c k obj =
  (result (k (result (c obj)) (object (c obj))),
   object (k (result (c obj)) (object (c obj))),
   trace (c obj) ++ trace (k (result (c obj)) (object (c obj)))).
Proof.
  unfold bind, result, object, trace.
  destruct (c obj) as [[a obj1] t1]; simpl.
  destruct (k a obj1) as [[b obj2] t2]; reflexivity.
Qed.

Lemma eta_object {T : Type} (obj : AtomicValueImpl T) :
  mkAtomicValueImpl (value_ obj) = obj.
Proof. destruct obj; reflexivity. Qed.

(** The select_backend table, row by row. *)
Lemma select_backend_cases :
  select_backend true true = Some KE_USE_CXX11_ATOMICS /\
  select_backend true false = Some KE_USE_CXX11_ATOMICS /\
  select_backend false true = Some GNUC_FENCES /\
  select_backend false false = None.
Proof. repeat split. Qed.

(** ** The core, call by call *)

Section CoreFacts.
Context {T : Type}.
Variable backend : Backend.
Variable Order : MemoryOrdering.

Lemma Impl_get_value (obj : AtomicValueImpl T) :
  result (Impl_get backend Order obj) = value_ obj /\
  object (Impl_get backend Order obj) = obj.
Proof. destruct backend, Order; split; reflexivity. Qed.

Lemma Impl_set_value (v : T) (obj : AtomicValueImpl T) :
  value_ (object (Impl_set backend Order v obj)) = v.
Proof. destruct backend, Order; reflexivity. Qed.

Lemma Impl_exchange_value (v : T) (obj : AtomicValueImpl T) :
  result (Impl_exchange backend Order v obj) = value_ obj /\
  object (Impl_exchange backend Order v obj) = mkAtomicValueImpl v.
Proof. destruct backend, Order; split; reflexivity. Qed.

(** One call of either backend is one step of the sequential register. *)
Lemma core_step_register (op : CoreOp T) (obj : AtomicValueImpl T) :
  result (core_step backend Order op obj) = fst (register_step op (value_ obj)) /\
  value_ (object (core_step backend Order op obj)) = snd (register_step op (value_ obj)).
Proof. destruct backend, Order, op; split; reflexivity. Qed.

(** And so is a whole sequence of calls. *)
Lemma core_run_register (ops : list (CoreOp T)) :
  forall obj : AtomicValueImpl T,
    result (core_run backend Order ops obj) = fst (register_run ops (value_ obj)) /\
    value_ (object (core_run backend Order ops obj)) = snd (register_run ops (value_ obj)).
Proof.
  induction ops as [| op rest IH]; intros obj.
  - split; reflexivity.
  - cbn [core_run register_run].
    destruct (core_step_register op obj) as [Hr Hv].
    rewrite bind_run, bind_run.
    specialize (IH (object (core_step backend Order op obj))).
    destruct IH as [IHr IHv].
    rewrite Hv in IHr, IHv.
    destruct (register_step op (value_ obj)) as [r cur1]; simpl in *.
    destruct (register_run rest cur1) as [rs cur2]; simpl in *.
    unfold result, object in *; simpl.
    rewrite Hr, IHr, IHv. split; reflexivity.
Qed.

End CoreFacts.

(* ================================================================== *)
(** ** The ordering policies *)

(** C6.  The <atomic> policy gives [memory_order_relaxed] for load, store
    and read-modify-write under Relaxed, which is the weakest ordering each
    kind of operation accepts, and [memory_order_seq_cst] for all three
    under SeqCst, which is the strongest. *)
Theorem StlOrdering_weakest_strongest :
  (Cxx11.Load (Cxx11.StlOrdering Relaxed) = memory_order_relaxed /\
   Cxx11.Store (Cxx11.StlOrdering Relaxed) = memory_order_relaxed /\
   Cxx11.ReadModifyWrite (Cxx11.StlOrdering Relaxed) = memory_order_relaxed) /\
  (Cxx11.Load (Cxx11.StlOrdering SeqCst) = memory_order_seq_cst /\
   Cxx11.Store (Cxx11.StlOrdering SeqCst) = memory_order_seq_cst /\
   Cxx11.ReadModifyWrite (Cxx11.StlOrdering SeqCst) = memory_order_seq_cst) /\
  (forall m : memory_order,
     weaker_eq (Cxx11.Load (Cxx11.StlOrdering Relaxed)) m = true /\
     weaker_eq (Cxx11.Store (Cxx11.StlOrdering Relaxed)) m = true /\
     weaker_eq (Cxx11.ReadModifyWrite (Cxx11.StlOrdering Relaxed)) m = true /\
     weaker_eq m (Cxx11.Load (Cxx11.StlOrdering SeqCst)) = true /\
     weaker_eq m (Cxx11.Store (Cxx11.StlOrdering SeqCst)) = true /\
     weaker_eq m (Cxx11.ReadModifyWrite (Cxx11.StlOrdering SeqCst)) = true) /\
  (forall Order : MemoryOrdering,
     valid_for_load (Cxx11.Load (Cxx11.StlOrdering Order)) = true /\
     valid_for_store (Cxx11.Store (Cxx11.StlOrdering Order)) = true /\
     valid_for_rmw (Cxx11.ReadModifyWrite (Cxx11.StlOrdering Order)) = true).
Proof.
  split; [| split; [| split]].
  - repeat split.
  - repeat split.
  - intros m; destruct m; repeat split.
  - intros Order; destruct Order; repeat split.
Qed.

(** C7.  In the fence backend each of the four fences does nothing under
    Relaxed and is one full barrier under SeqCst, leaving the object as it
    is; [get] runs the before-load fence, a plain read and the after-load
    fence, in that order, and [set] runs the before-store fence, a plain
    write and the after-store fence. *)
Theorem Synchronize_fences_and_get_set (T : Type) (v : T) (obj : AtomicValueImpl T) :
  (Fence.FenceBeforeLoad (Fence.Synchronize Relaxed) obj = (tt, obj, []) /\
   Fence.FenceAfterLoad (Fence.Synchronize Relaxed) obj = (tt, obj, []) /\
   Fence.FenceBeforeStore (Fence.Synchronize Relaxed) obj = (tt, obj, []) /\
   Fence.FenceAfterStore (Fence.Synchronize Relaxed) obj = (tt, obj, [])) /\
  (Fence.FenceBeforeLoad (Fence.Synchronize SeqCst) obj = (tt, obj, [EvSyncSynchronize]) /\
   Fence.FenceAfterLoad (Fence.Synchronize SeqCst) obj = (tt, obj, [EvSyncSynchronize]) /\
   Fence.FenceBeforeStore (Fence.Synchronize SeqCst) obj = (tt, obj, [EvSyncSynchronize]) /\
   Fence.FenceAfterStore (Fence.Synchronize SeqCst) obj = (tt, obj, [EvSyncSynchronize])) /\
  (forall Order : MemoryOrdering,
     trace (Fence.get Order obj) =
       trace (Fence.FenceBeforeLoad (Fence.Synchronize Order) obj)
       ++ [EvPlainLoad]
       ++ trace (Fence.FenceAfterLoad (Fence.Synchronize Order) obj) /\
     trace (Fence.set Order v obj) =
       trace (Fence.FenceBeforeStore (Fence.Synchronize Order) obj)
       ++ [EvPlainStore v]
       ++ trace (Fence.FenceAfterStore (Fence.Synchronize Order) obj)) /\
  (Fence.get Relaxed obj = (value_ obj, obj, [EvPlainLoad]) /\
   Fence.get SeqCst obj =
     (value_ obj, obj, [EvSyncSynchronize; EvPlainLoad; EvSyncSynchronize])) /\
  (Fence.set Relaxed v obj = (tt, mkAtomicValueImpl v, [EvPlainStore v]) /\
   Fence.set SeqCst v obj =
     (tt, mkAtomicValueImpl v, [EvSyncSynchronize; EvPlainStore v; EvSyncSynchronize])).
Proof.
  repeat match goal with |- _ /\ _ => split end; try reflexivity.
  intros Order; destruct Order; split; reflexivity.
Qed.

(** ** Exchange *)

(** C1, as the header has it.  In the fence backend [exchange] runs the
    before-store fence of its ordering policy and then the test-and-set
    intrinsic: under SeqCst that is one full barrier followed by the
    intrinsic, under Relaxed it is the intrinsic alone. *)
Theorem exchange_fence_follows_policy (T : Type) (v : T) (obj : AtomicValueImpl T) :
  (forall Order : MemoryOrdering,
     trace (Fence.exchange Order v obj) =
       trace (Fence.FenceBeforeStore (Fence.Synchronize Order) obj)
       ++ [EvSyncLockTestAndSet v]) /\
  trace (Fence.exchange SeqCst v obj) = [EvSyncSynchronize; EvSyncLockTestAndSet v] /\
  trace (Fence.exchange Relaxed v obj) = [EvSyncLockTestAndSet v].
Proof.
  split; [intros Order; destruct Order; reflexivity | split; reflexivity].
Qed.

(** C1 as stated fails: a Relaxed exchange of 1 into an object holding 0
    invokes the intrinsic with no fence before it. *)
Lemma exchange_relaxed_has_no_fence :
  trace (Fence.exchange Relaxed 1 (Fence.ctor 0)) = [EvSyncLockTestAndSet 1] /\
  has_fence (trace (Fence.exchange Relaxed 1 (Fence.ctor 0))) = false /\
  ~ (forall Order : MemoryOrdering,
       has_fence (trace (Fence.exchange Order 1 (Fence.ctor 0))) = true).
Proof.
  split; [reflexivity | split; [reflexivity |]].
  intros H. specialize (H Relaxed). discriminate H.
Qed.

(** C3.  In either backend and under either ordering, [exchange v] returns
    the value stored just before the call and leaves [v] stored. *)
Theorem exchange_returns_old_stores_new
  (T : Type) (backend : Backend) (Order : MemoryOrdering)
  (v : T) (obj : AtomicValueImpl T) :
  result (Impl_exchange backend Order v obj) = value_ obj /\
  value_ (object (Impl_exchange backend Order v obj)) = v.
Proof.
  destruct (Impl_exchange_value backend Order v obj) as [Hr Ho].
  rewrite Hr, Ho. split; reflexivity.
Qed.

(** C8.  Applied to the same object and the same sequence of [get], [set]
    and [exchange] calls, the <atomic> backend and the fence backend return
    the same values and leave the same value stored. *)
Theorem backends_interchangeable
  (T : Type) (Order : MemoryOrdering) (ops : list (CoreOp T)) (obj : AtomicValueImpl T) :
  result (core_run KE_USE_CXX11_ATOMICS Order ops obj) =
    result (core_run GNUC_FENCES Order ops obj) /\
  object (core_run KE_USE_CXX11_ATOMICS Order ops obj) =
    object (core_run GNUC_FENCES Order ops obj).
Proof.
  destruct (core_run_register KE_USE_CXX11_ATOMICS Order ops obj) as [Ha Hb].
  destruct (core_run_register GNUC_FENCES Order ops obj) as [Hc Hd].
  split.
  - rewrite Ha, Hc. reflexivity.
  - rewrite <- (eta_object (object (core_run KE_USE_CXX11_ATOMICS Order ops obj))).
    rewrite <- (eta_object (object (core_run GNUC_FENCES Order ops obj))).
    rewrite Hb, Hd. reflexivity.
Qed.

(* ================================================================== *)
(** ** The boolean wrapper *)

Lemma not_not_bool_to_int (b : bool) : not_not (to_int32 (bool_to_int b)) = b.
Proof. destruct b; reflexivity. Qed.

Lemma to_int32_bool_to_int (b : bool) :
  to_int32 (bool_to_int b) = 0 \/ to_int32 (bool_to_int b) = 1.
Proof. destruct b; [right | left]; reflexivity. Qed.

Lemma not_not_false (x : Z) : not_not x = false -> x = 0.
Proof.
  unfold not_not, lnot. intros H.
  apply negb_false_iff in H. apply Z.eqb_eq in H. exact H.
Qed.

Section BoolFacts.
Variable backend : Backend.
Variable Order : MemoryOrdering.

Lemma operator_bool_run (obj : AtomicValueImpl int32_t) :
  result (operator_bool backend Order obj) = not_not (value_ obj) /\
  object (operator_bool backend Order obj) = obj.
Proof. destruct backend, Order; split; reflexivity. Qed.

Lemma Atomic_bool_exchange_run (value : bool) (obj : AtomicValueImpl int32_t) :
  result (Atomic_bool_exchange backend Order value obj) = not_not (value_ obj) /\
  object (Atomic_bool_exchange backend Order value obj) =
    mkAtomicValueImpl (to_int32 (bool_to_int value)).
Proof. destruct backend, Order; split; reflexivity. Qed.

Lemma construct_zero_or_one (c : BoolCtor) : zero_or_one (construct backend c).
Proof.
  destruct c as [| value]; destruct backend; unfold zero_or_one; simpl.
  - left; reflexivity.
  - left; reflexivity.
  - apply to_int32_bool_to_int.
  - apply to_int32_bool_to_int.
Qed.

Lemma bool_step_zero_or_one (op : BoolOp) (obj : AtomicValueImpl int32_t) :
  zero_or_one obj -> zero_or_one (object (bool_step backend Order op obj)).
Proof.
  intros Hinv. destruct op as [| value]; simpl.
  - destruct (operator_bool_run obj) as [_ Ho]. rewrite Ho. exact Hinv.
  - destruct (Atomic_bool_exchange_run value obj) as [_ Ho]. rewrite Ho.
    unfold zero_or_one; simpl. apply to_int32_bool_to_int.
Qed.

Lemma bool_run_zero_or_one (ops : list BoolOp) :
  forall obj : AtomicValueImpl int32_t,
    zero_or_one obj -> zero_or_one (object (bool_run backend Order ops obj)).
Proof.
  induction ops as [| op rest IH]; intros obj Hinv.
  - exact Hinv.
  - cbn [bool_run]. rewrite bind_run, bind_run.
    unfold object at 1; simpl.
    apply IH. apply bool_step_zero_or_one. exact Hinv.
Qed.

End BoolFacts.

(** C2, as the header has it.  [Atomic<bool, Order>()] stores 0 in its
    integer core and reads as false, in either backend; the expression
    [Atomic<T, Order>()] is well-formed for [bool], and it is not for the
    32-bit integer, whose instantiation selects the bodiless primary
    template. *)
Theorem default_construction (backend : Backend) (Order : MemoryOrdering) :
  value_ (Atomic_bool_default backend) = 0 /\
  result (operator_bool backend Order (Atomic_bool_default backend)) = false /\
  Atomic_default backend Order TBool = Some (Atomic_bool_default backend) /\
  Atomic_default_value backend TBool = Some 0 /\
  Atomic_default backend Order (TInt true 32) = None /\
  Atomic_default_value backend (TInt true 32) = None.
Proof. destruct backend, Order; repeat split. Qed.

(** C2 as stated fails: [Atomic<int32>()] does not yield an object holding
    0, in either backend, because [Atomic<int32_t, SeqCst>] has no body. *)
Lemma default_int32_not_constructible :
  Atomic_decl (TInt true 32) default_Order = DeclaredOnly /\
  Atomic_default_value KE_USE_CXX11_ATOMICS (TInt true 32) <> Some 0 /\
  Atomic_default_value GNUC_FENCES (TInt true 32) <> Some 0 /\
  ~ (exists a : Atomic (TInt true 32) default_Order,
       Atomic_default GNUC_FENCES default_Order (TInt true 32) = Some a).
Proof.
  split; [reflexivity |].
  split; [discriminate |].
  split; [discriminate |].
  intros [a _]. destruct a.
Qed.

(** C4.  An [Atomic<bool>] constructed from [b] reads back [b]; on an
    object that reads false, [exchange(true)] returns false, and the object
    reads true afterwards. *)
Theorem bool_round_trip
  (backend : Backend) (Order : MemoryOrdering) (b : bool)
  (a : AtomicValueImpl int32_t)
  (Hfalse : result (operator_bool backend Order a) = false) :
  result (operator_bool backend Order (Atomic_bool_ctor backend b)) = b /\
  result (Atomic_bool_exchange backend Order true a) = false /\
  result (operator_bool backend Order
            (object (Atomic_bool_exchange backend Order true a))) = true.
Proof.
  destruct (operator_bool_run backend Order a) as [Hr _].
  rewrite Hr in Hfalse.
  destruct (Atomic_bool_exchange_run backend Order true a) as [Hx Ho].
  split; [| split].
  - destruct (operator_bool_run backend Order (Atomic_bool_ctor backend b)) as [Hb _].
    rewrite Hb. destruct backend; apply not_not_bool_to_int.
  - rewrite Hx. exact Hfalse.
  - rewrite Ho.
    destruct (operator_bool_run backend Order
                (mkAtomicValueImpl (to_int32 (bool_to_int true)))) as [Hb _].
    rewrite Hb. reflexivity.
Qed.

Lemma bool_round_trip_witness :
  result (operator_bool GNUC_FENCES SeqCst (Atomic_bool_ctor GNUC_FENCES false)) = false /\
  (result (operator_bool GNUC_FENCES SeqCst (Atomic_bool_ctor GNUC_FENCES true)) = true /\
   result (Atomic_bool_exchange GNUC_FENCES SeqCst true
             (Atomic_bool_ctor GNUC_FENCES false)) = false /\
   result (operator_bool GNUC_FENCES SeqCst
             (object (Atomic_bool_exchange GNUC_FENCES SeqCst true
                        (Atomic_bool_ctor GNUC_FENCES false)))) = true).
Proof.
  split.
  - reflexivity.
  - apply (bool_round_trip GNUC_FENCES SeqCst true (Atomic_bool_ctor GNUC_FENCES false)).
    reflexivity.
Defined.

(** C5.  The integer core of an [Atomic<bool, Order>] holds 0 or 1 right
    after either constructor and after every sequence of reads and
    exchanges that follows, in either backend; and whatever a core holds,
    an exchange leaves 0 or 1 in it. *)
Theorem bool_core_zero_or_one
  (backend : Backend) (Order : MemoryOrdering) (c : BoolCtor) (ops : list BoolOp) :
  zero_or_one (construct backend c) /\
  zero_or_one (object (bool_run backend Order ops (construct backend c))) /\
  (forall (value : bool) (obj : AtomicValueImpl int32_t),
     zero_or_one (object (Atomic_bool_exchange backend Order value obj))).
Proof.
  split; [apply construct_zero_or_one | split].
  - apply bool_run_zero_or_one. apply construct_zero_or_one.
  - intros value obj.
    destruct (Atomic_bool_exchange_run backend Order value obj) as [_ Ho].
    rewrite Ho. unfold zero_or_one; simpl. apply to_int32_bool_to_int.
Qed.

(** C10.  For every [T] other than [bool], [Atomic<T, Order>] selects the
    primary template, which has no body: the type has no objects and its
    default-construction is ill-formed.  [Atomic<bool, Order>] selects the
    specialisation, which has one. *)
Theorem non_bool_Atomic_undefined
  (T : CxxType) (Order : MemoryOrdering) (Hnot_bool : T <> TBool) :
  Atomic_decl T Order = DeclaredOnly /\
  (Atomic T Order -> False) /\
  (forall backend : Backend,
     Atomic_default backend Order T = None /\
     Atomic_default_value backend T = None) /\
  Atomic_decl TBool Order = Defined.
Proof.
  destruct T; try (exfalso; apply Hnot_bool; reflexivity);
    (split; [reflexivity | split; [intros a; destruct a | split; [| reflexivity]]]);
    intros backend; split; reflexivity.
Qed.

Lemma non_bool_Atomic_undefined_witness :
  TInt true 32 <> TBool /\
  (Atomic_decl (TInt true 32) SeqCst = DeclaredOnly /\
   (Atomic (TInt true 32) SeqCst -> False) /\
   (forall backend : Backend,
      Atomic_default backend SeqCst (TInt true 32) = None /\
      Atomic_default_value backend (TInt true 32) = None) /\
   Atomic_decl TBool SeqCst = Defined).
Proof.
  split.
  - discriminate.
  - apply (non_bool_Atomic_undefined (TInt true 32) SeqCst). discriminate.
Defined.

(* ================================================================== *)
(** ** Call sequences on the core *)

Section RunFacts.
Context {T : Type}.
Variable backend : Backend.
Variable Order : MemoryOrdering.

Lemma core_run_cons (op : CoreOp T) (rest : list (CoreOp T)) (obj : AtomicValueImpl T) :
  result (core_run backend Order (op :: rest) obj) =
    result (core_step backend Order op obj)
    :: result (core_run backend Order rest (object (core_step backend Order op obj))) /\
  object (core_run backend Order (op :: rest) obj) =
    object (core_run backend Order rest (object (core_step backend Order op obj))) /\
  trace (core_run backend Order (op :: rest) obj) =
    trace (core_step backend Order op obj)
    ++ trace (core_run backend Order rest (object (core_step backend Order op obj))).
Proof.
  cbn [core_run]. rewrite bind_run, bind_run.
  unfold result, object, trace, ret; simpl.
  rewrite app_nil_r. repeat split.
Qed.

Lemma core_run_app (ops1 : list (CoreOp T)) :
  forall (ops2 : list (CoreOp T)) (obj : AtomicValueImpl T),
    result (core_run backend Order (ops1 ++ ops2) obj) =
      result (core_run backend Order ops1 obj)
      ++ result (core_run backend Order ops2 (object (core_run backend Order ops1 obj))) /\
    object (core_run backend Order (ops1 ++ ops2) obj) =
      object (core_run backend Order ops2 (object (core_run backend Order ops1 obj))).
Proof.
  induction ops1 as [| op rest IH]; intros ops2 obj.
  - split; reflexivity.
  - rewrite <- app_comm_cons.
    destruct (core_run_cons op (rest ++ ops2) obj) as [Hr [Ho _]].
    destruct (core_run_cons op rest obj) as [Hr1 [Ho1 _]].
    destruct (IH ops2 (object (core_step backend Order op obj))) as [IHr IHo].
    rewrite Hr, Ho, Hr1, Ho1, IHr, IHo. split; reflexivity.
Qed.

Lemma register_run_last_written (ops : list (CoreOp T)) :
  forall cur : T, snd (register_run ops cur) = last_written ops cur.
Proof.
  induction ops as [| op rest IH]; intros cur.
  - reflexivity.
  - cbn [register_run].
    destruct op as [| value | newValue]; simpl;
      match goal with
      | |- snd (let '(rs, cur2) := register_run rest ?c in _) = _ =>
          rewrite <- (IH c); destruct (register_run rest c); reflexivity
      end.
Qed.

Lemma core_run_last_written (ops : list (CoreOp T)) (obj : AtomicValueImpl T) :
  value_ (object (core_run backend Order ops obj)) = last_written ops (value_ obj).
Proof.
  destruct (core_run_register backend Order ops obj) as [_ Hv].
  rewrite Hv. apply register_run_last_written.
Qed.

End RunFacts.

(** X1.  The requested ordering changes no value: under Relaxed and under
    SeqCst the same backend returns the same results for a sequence of
    calls and leaves the same object. *)
Theorem values_independent_of_ordering
  (T : Type) (backend : Backend) (ops : list (CoreOp T)) (obj : AtomicValueImpl T) :
  result (core_run backend Relaxed ops obj) = result (core_run backend SeqCst ops obj) /\
  object (core_run backend Relaxed ops obj) = object (core_run backend SeqCst ops obj).
Proof.
  destruct (core_run_register backend Relaxed ops obj) as [Ha Hb].
  destruct (core_run_register backend SeqCst ops obj) as [Hc Hd].
  split.
  - rewrite Ha, Hc. reflexivity.
  - rewrite <- (eta_object (object (core_run backend Relaxed ops obj))).
    rewrite <- (eta_object (object (core_run backend SeqCst ops obj))).
    rewrite Hb, Hd. reflexivity.
Qed.

(** X2.  Last write wins: after any sequence of calls the object holds the
    value of the last [set] or [exchange] (the initial value when there was
    none), and a [get] issued after the sequence returns exactly that
    value. *)
Theorem last_write_wins
  (T : Type) (backend : Backend) (Order : MemoryOrdering)
  (ops : list (CoreOp T)) (obj : AtomicValueImpl T) :
  value_ (object (core_run backend Order ops obj)) = last_written ops (value_ obj) /\
  result (core_run backend Order (ops ++ [CallGet]) obj) =
    result (core_run backend Order ops obj) ++ [Some (last_written ops (value_ obj))] /\
  object (core_run backend Order (ops ++ [CallGet]) obj) =
    object (core_run backend Order ops obj).
Proof.
  destruct (core_run_app backend Order ops [CallGet] obj) as [Hr Ho].
  pose proof (core_run_last_written backend Order ops obj) as Hl.
  split; [exact Hl | split].
  - rewrite Hr. f_equal.
    destruct (core_run_cons backend Order CallGet []
                (object (core_run backend Order ops obj))) as [Hr1 _].
    rewrite Hr1.
    destruct (core_step_register backend Order CallGet
                (object (core_run backend Order ops obj))) as [Hs _].
    rewrite Hs. simpl. rewrite Hl. reflexivity.
  - rewrite Ho.
    destruct (core_run_cons backend Order CallGet []
                (object (core_run backend Order ops obj))) as [_ [Ho1 _]].
    rewrite Ho1. simpl.
    destruct backend, Order; reflexivity.
Qed.

(** X3.  On values, [exchange v] is [get] followed by [set v]: both return
    the old value and leave [v].  They differ in what they issue: the
    exchange is one read-modify-write access, the pair is a load and a
    store. *)
Theorem exchange_is_get_then_set
  (T : Type) (backend : Backend) (Order : MemoryOrdering)
  (v : T) (obj : AtomicValueImpl T) :
  result (Impl_exchange backend Order v obj) = result (get_then_set backend Order v obj) /\
  object (Impl_exchange backend Order v obj) = object (get_then_set backend Order v obj) /\
  accesses (trace (Impl_exchange backend Order v obj)) = [AccExchange v] /\
  accesses (trace (get_then_set backend Order v obj)) = [AccLoad; AccStore v].
Proof. destruct backend, Order; repeat split. Qed.

(** X4.  [set] then [get] reads back what was set; [get] leaves the object
    as it found it, so a second [get] returns the same value; and a [set]
    overwrites whatever an earlier [set] stored. *)
Theorem set_get_round_trip
  (T : Type) (backend : Backend) (Order : MemoryOrdering)
  (v w : T) (obj : AtomicValueImpl T) :
  result (Impl_get backend Order (object (Impl_set backend Order v obj))) = v /\
  object (Impl_get backend Order obj) = obj /\
  result (Impl_get backend Order (object (Impl_get backend Order obj))) =
    result (Impl_get backend Order obj) /\
  object (Impl_set backend Order w (object (Impl_set backend Order v obj))) =
    object (Impl_set backend Order w obj).
Proof. destruct backend, Order; repeat split. Qed.

(* ================================================================== *)
(** ** What a call sequence issues *)

Lemma count_fences_app {T : Type} (t1 t2 : list (Event T)) :
  count_fences (t1 ++ t2) = (count_fences t1 + count_fences t2)%nat.
Proof. unfold count_fences. rewrite filter_app, length_app. reflexivity. Qed.

Lemma accesses_app {T : Type} (t1 t2 : list (Event T)) :
  accesses (t1 ++ t2) = accesses t1 ++ accesses t2.
Proof.
  induction t1 as [| e rest IH]; simpl.
  - reflexivity.
  - destruct (access_of_event e); rewrite IH; reflexivity.
Qed.

Lemma count_calls_cons {T : Type} (p : CoreOp T -> bool) (op : CoreOp T)
  (rest : list (CoreOp T)) :
  count_calls p (op :: rest) =
    ((if p op then 1 else 0) + count_calls p rest)%nat.
Proof. unfold count_calls; simpl. destruct (p op); reflexivity. Qed.

(** X5.  Fences issued by the fence backend over a sequence of calls: none
    under Relaxed; under SeqCst two for every [get], two for every [set] and
    one for every [exchange]. *)
Theorem fence_backend_fence_count
  (T : Type) (ops : list (CoreOp T)) (obj : AtomicValueImpl T) :
  count_fences (trace (core_run GNUC_FENCES Relaxed ops obj)) = 0%nat /\
  count_fences (trace (core_run GNUC_FENCES SeqCst ops obj)) =
    (2 * count_calls is_get ops + 2 * count_calls is_set ops
     + count_calls is_exchange ops)%nat.
Proof.
  revert obj. induction ops as [| op rest IH]; intros obj.
  - split; reflexivity.
  - destruct (core_run_cons GNUC_FENCES Relaxed op rest obj) as [_ [_ Ht1]].
    destruct (core_run_cons GNUC_FENCES SeqCst op rest obj) as [_ [_ Ht2]].
    rewrite Ht1, Ht2, !count_fences_app, !count_calls_cons.
    destruct (IH (object (core_step GNUC_FENCES Relaxed op obj))) as [IH1 _].
    destruct (IH (object (core_step GNUC_FENCES SeqCst op obj))) as [_ IH2].
    rewrite IH1, IH2.
    destruct op; simpl; split; try reflexivity; lia.
Qed.

(** X6.  The <atomic> backend issues nothing but [std::atomic] calls, each
    carrying the ordering of the policy: [memory_order_relaxed] throughout
    under Relaxed, [memory_order_seq_cst] throughout under SeqCst; it never
    issues a fence of its own. *)
Theorem cxx11_backend_uniform_ordering
  (T : Type) (ops : list (CoreOp T)) (obj : AtomicValueImpl T) :
  Forall (atomic_call_with memory_order_relaxed)
    (trace (core_run KE_USE_CXX11_ATOMICS Relaxed ops obj)) /\
  Forall (atomic_call_with memory_order_seq_cst)
    (trace (core_run KE_USE_CXX11_ATOMICS SeqCst ops obj)) /\
  (forall Order : MemoryOrdering,
     count_fences (trace (core_run KE_USE_CXX11_ATOMICS Order ops obj)) = 0%nat).
Proof.
  revert obj. induction ops as [| op rest IH]; intros obj.
  - split; [constructor | split; [constructor | intros Order; reflexivity]].
  - destruct (core_run_cons KE_USE_CXX11_ATOMICS Relaxed op rest obj) as [_ [_ Ht1]].
    destruct (core_run_cons KE_USE_CXX11_ATOMICS SeqCst op rest obj) as [_ [_ Ht2]].
    destruct (IH (object (core_step KE_USE_CXX11_ATOMICS Relaxed op obj))) as [IH1 _].
    destruct (IH (object (core_step KE_USE_CXX11_ATOMICS SeqCst op obj))) as [_ [IH2 _]].
    split; [| split].
    + rewrite Ht1. apply Forall_app. split; [| exact IH1].
      destruct op; repeat constructor.
    + rewrite Ht2. apply Forall_app. split; [| exact IH2].
      destruct op; repeat constructor.
    + intros Order.
      destruct (core_run_cons KE_USE_CXX11_ATOMICS Order op rest obj) as [_ [_ Ht]].
      rewrite Ht, count_fences_app.
      destruct (IH (object (core_step KE_USE_CXX11_ATOMICS Order op obj))) as [_ [_ IH3]].
      rewrite (IH3 Order).
      destruct Order, op; reflexivity.
Qed.

(** X7.  Whatever the backend and the ordering, a sequence of calls issues
    exactly one memory access per call, in call order: a load for [get], a
    store of the argument for [set], an exchange with the argument for
    [exchange]. *)
Theorem one_access_per_call
  (T : Type) (backend : Backend) (Order : MemoryOrdering)
  (ops : list (CoreOp T)) (obj : AtomicValueImpl T) :
  accesses (trace (core_run backend Order ops obj)) = map access_of_call ops.
Proof.
  revert obj. induction ops as [| op rest IH]; intros obj.
  - reflexivity.
  - destruct (core_run_cons backend Order op rest obj) as [_ [_ Ht]].
    rewrite Ht, accesses_app, IH. simpl. f_equal.
    destruct backend, Order, op; reflexivity.
Qed.

(** X8.  In the fence backend the two orderings differ by the fences and by
    nothing else: the SeqCst trace of a sequence of calls with its fences
    removed is the Relaxed trace. *)
Theorem seqcst_is_relaxed_plus_fences
  (T : Type) (ops : list (CoreOp T)) (obj : AtomicValueImpl T) :
  drop_fences (trace (core_run GNUC_FENCES SeqCst ops obj)) =
    trace (core_run GNUC_FENCES Relaxed ops obj).
Proof.
  revert obj. induction ops as [| op rest IH]; intros obj.
  - reflexivity.
  - destruct (core_run_cons GNUC_FENCES SeqCst op rest obj) as [_ [_ Ht1]].
    destruct (core_run_cons GNUC_FENCES Relaxed op rest obj) as [_ [_ Ht2]].
    rewrite Ht1, Ht2. unfold drop_fences. rewrite filter_app.
    fold (drop_fences (trace (core_run GNUC_FENCES SeqCst rest
                                (object (core_step GNUC_FENCES SeqCst op obj))))).
    rewrite IH.
    assert (Hobj : object (core_step GNUC_FENCES SeqCst op obj) =
                   object (core_step GNUC_FENCES Relaxed op obj))
      by (destruct op; reflexivity).
    rewrite Hobj.
    destruct op; reflexivity.
Qed.


(* ================================================================== *)
(** ** Call sequences on the boolean wrapper *)

Section BoolRunFacts.
Variable backend : Backend.
Variable Order : MemoryOrdering.

Lemma bool_run_cons (op : BoolOp) (rest : list BoolOp) (obj : AtomicValueImpl int32_t) :
  result (bool_run backend Order (op :: rest) obj) =
    result (bool_step backend Order op obj)
    :: result (bool_run backend Order rest (object (bool_step backend Order op obj))) /\
  object (bool_run backend Order (op :: rest) obj) =
    object (bool_run backend Order rest (object (bool_step backend Order op obj))) /\
  trace (bool_run backend Order (op :: rest) obj) =
    trace (bool_step backend Order op obj)
    ++ trace (bool_run backend Order rest (object (bool_step backend Order op obj))).
Proof.
  cbn [bool_run]. rewrite bind_run, bind_run.
  unfold result, object, trace, ret; simpl.
  rewrite app_nil_r. repeat split.
Qed.

Lemma bool_step_lower (op : BoolOp) (obj : AtomicValueImpl int32_t) :
  Some (result (bool_step backend Order op obj)) =
    option_map not_not (result (core_step backend Order (lower op) obj)) /\
  object (bool_step backend Order op obj) =
    object (core_step backend Order (lower op) obj) /\
  trace (bool_step backend Order op obj) =
    trace (core_step backend Order (lower op) obj).
Proof. destruct backend, Order, op; repeat split. Qed.

Lemma bool_step_flag (op : BoolOp) (obj : AtomicValueImpl int32_t) :
  result (bool_step backend Order op obj) = fst (flag_step op (not_not (value_ obj))) /\
  not_not (value_ (object (bool_step backend Order op obj))) =
    snd (flag_step op (not_not (value_ obj))).
Proof.
  destruct op as [| value].
  - destruct backend, Order; split; reflexivity.
  - destruct (Atomic_bool_exchange_run backend Order value obj) as [Hr Ho].
    simpl. rewrite Hr, Ho. simpl. split; [reflexivity |].
    apply not_not_bool_to_int.
Qed.

End BoolRunFacts.

(** X10.  The boolean wrapper adds nothing to the machine: a sequence of
    reads and exchanges on an [Atomic<bool, Order>] issues the same
    primitives and leaves the same object as the corresponding [get] and
    [exchange(0 or 1)] calls on its integer core, and its results are the
    core's results passed through [!!]. *)
Theorem bool_wrapper_lowers_to_core
  (backend : Backend) (Order : MemoryOrdering)
  (ops : list BoolOp) (obj : AtomicValueImpl int32_t) :
  map Some (result (bool_run backend Order ops obj)) =
    map (option_map not_not) (result (core_run backend Order (map lower ops) obj)) /\
  object (bool_run backend Order ops obj) =
    object (core_run backend Order (map lower ops) obj) /\
  trace (bool_run backend Order ops obj) =
    trace (core_run backend Order (map lower ops) obj).
Proof.
  revert obj. induction ops as [| op rest IH]; intros obj.
  - repeat split.
  - cbn [map].
    destruct (bool_run_cons backend Order op rest obj) as [Hr [Ho Ht]].
    destruct (core_run_cons backend Order (lower op) (map lower rest) obj)
      as [Hr' [Ho' Ht']].
    destruct (bool_step_lower backend Order op obj) as [Sr [So St]].
    destruct (IH (object (bool_step backend Order op obj))) as [IHr [IHo IHt]].
    rewrite Hr, Ho, Ht, Hr', Ho', Ht'. cbn [map].
    rewrite Sr, IHr, IHo, IHt, St, So. repeat split.
Qed.

(** X11.  An [Atomic<bool, Order>] behaves as a plain boolean cell: started
    on any object, whatever integer its core holds, a sequence of reads and
    exchanges returns what the cell started at [core != 0] returns, and the
    object ends up reading as the cell's final content. *)
Theorem bool_wrapper_is_boolean_cell
  (backend : Backend) (Order : MemoryOrdering)
  (ops : list BoolOp) (obj : AtomicValueImpl int32_t) :
  result (bool_run backend Order ops obj) = fst (flag_run ops (not_not (value_ obj))) /\
  not_not (value_ (object (bool_run backend Order ops obj))) =
    snd (flag_run ops (not_not (value_ obj))).
Proof.
  revert obj. induction ops as [| op rest IH]; intros obj.
  - split; reflexivity.
  - destruct (bool_run_cons backend Order op rest obj) as [Hr [Ho _]].
    destruct (bool_step_flag backend Order op obj) as [Sr So].
    destruct (IH (object (bool_step backend Order op obj))) as [IHr IHo].
    rewrite Hr, Ho, Sr, IHr, IHo, So.
    cbn [flag_run].
    destruct (flag_step op (not_not (value_ obj))) as [r cur1]; simpl.
    destruct (flag_run rest cur1) as [rs cur2]; simpl.
    split; reflexivity.
Qed.

(** X12.  [Atomic()] is the same object as [Atomic(false)]; [exchange(b)]
    on any object, whatever its core holds, leaves exactly the object
    [Atomic(b)] constructs, which then reads as [b]; and a core holding any
    nonzero integer reads as true. *)
Theorem bool_construction_and_exchange_agree
  (backend : Backend) (Order : MemoryOrdering) (b : bool)
  (obj : AtomicValueImpl int32_t) :
  Atomic_bool_default backend = Atomic_bool_ctor backend false /\
  object (Atomic_bool_exchange backend Order b obj) = Atomic_bool_ctor backend b /\
  result (operator_bool backend Order
            (object (Atomic_bool_exchange backend Order b obj))) = b /\
  (result (operator_bool backend Order obj) = true <-> value_ obj <> 0).
Proof.
  split; [destruct backend; reflexivity | split; [| split]].
  - destruct (Atomic_bool_exchange_run backend Order b obj) as [_ Ho].
    rewrite Ho. destruct backend; reflexivity.
  - destruct (Atomic_bool_exchange_run backend Order b obj) as [_ Ho].
    rewrite Ho.
    destruct (operator_bool_run backend Order
                (mkAtomicValueImpl (to_int32 (bool_to_int b)))) as [Hr _].
    rewrite Hr. simpl. apply not_not_bool_to_int.
  - destruct (operator_bool_run backend Order obj) as [Hr _].
    rewrite Hr. unfold not_not, lnot.
    rewrite negb_true_iff. apply Z.eqb_neq.
Qed.
